(** * modoboa_installer/utils.py: a shallow embedding and its properties

    The module keeps one piece of mutable state, the dictionary [ENV], and
    [make_password] reads the operating system's entropy source.  Python
    functions are therefore embedded in a state-and-exception monad [M]
    over a record [World]: a call that raises gives [Raise e], a call that
    returns normally gives [Return v], each with the state it leaves.

    Embedded here: [make_password], [settings], [convert_version_to_int]
    and [exec_cmd], with the builtins they call.  Of the operating system
    [exec_cmd] needs only the answer to the process it spawns (a return
    code and an output, or an exception), which it takes as a parameter.

    Integers are Python's unbounded integers ([Z]); [<<] is [Z.shiftl].
    Strings are sequences of code points below 256 ([string]). *)

From Stdlib Require Import ZArith String Ascii List Lia.
From stdpp Require Import prelude strings pretty gmap.

Local Open Scope Z_scope.

(** ** The Python runtime the module relies on *)

Module Py.

(** Values stored in [ENV] ("sudo_user" is a string or None, "debug" a
    boolean). *)
Inductive value :=
  | VNone
  | VBool (b : bool)
  | VInt (n : Z)
  | VStr (s : string).

(** The text carried by an exception, kept structured: the format string
    and its arguments. *)
Inductive message :=
  (* what int() says of a string it refuses: "invalid literal for int()
     with base 10: {!r}" or, for a literal of too many digits, "Exceeds the
     limit ({} digits) for integer string conversion: value has {} digits" *)
  | invalid_literal (s : string)
  (* "Versions with more than {0} decimal places are not supported" *)
  | too_many_places (places : Z)
  (* "Number {0} cannot be stored with only {1} bits. Max is {2}" *)
  | cannot_store (num bits max_num : Z).

Inductive exception :=
  | ValueError (msg : message)
  | NotImplementedError (msg : message)
  | KeyError (key : string)
  | IndexError
  (* raised by subprocess: a program that cannot be run, an argument
     Popen or communicate does not take *)
  | OSError
  | TypeError.

Inductive result (A : Type) :=
  | Return (a : A)
  | Raise (e : exception).
Arguments Return {A} a.
Arguments Raise {A} e.

(** The state a function of the module can observe or change: the module
    global [ENV], and the operating system's entropy source read by
    random.SystemRandom, as an endless sequence of draws of which [drawn]
    have been consumed. *)
Record World := mkWorld {
  ENV : gmap string value;
  entropy : nat → nat;
  drawn : nat
}.

Definition M (A : Type) : Type := World → result A * World.

#[global] Instance M_ret : MRet M := λ A a w, (Return a, w).
#[global] Instance M_bind : MBind M := λ A B f m w,
  match m w with
  | (Return a, w') => f a w'
  | (Raise e, w') => (Raise e, w')
  end.
#[global] Instance M_throw : MThrow exception M := λ A e w, (Raise e, w).

Definition raise {A} (e : exception) : M A := mthrow e.

(** [for x in l: body], with the local variables the body assigns threaded
    through as [s]. *)
Fixpoint for_in {A S} (l : list A) (body : A → S → M S) (s : S) : M S :=
  match l with
  | [] => mret s
  | x :: l' => s' ← body x s; for_in l' body s'
  end.

(** *** str.split(sep) for a one-character separator *)

Fixpoint split (sep : ascii) (s : string) : list string :=
  match s with
  | EmptyString => [EmptyString]
  | String c s' =>
      if decide (c = sep) then EmptyString :: split sep s'
      else match split sep s' with
           | p :: ps => String c p :: ps
           | [] => [String c EmptyString]
           end
  end.

(** *** int(str)

    CPython 3's int() on a string, base 10: optional surrounding white
    space, an optional sign, then decimal digits in which single
    underscores may separate digits, and no more digits than the
    interpreter's limit for integer string conversion, 4300 by default.
    Any other string raises ValueError. *)

Definition ord (c : ascii) : Z := Z.of_N (N_of_ascii c).

(** The white space int() skips around a literal: tab to carriage return
    (9..13) and the space (32); the next-line and no-break-space characters
    (0x85, 0xA0) are turned into spaces before the literal is read.  The
    separators 28..31 are not skipped. *)
Definition int_whitespace (c : ascii) : bool :=
  let n := ord c in
  ((9 <=? n) && (n <=? 13)) || (n =? 32) || (n =? 133) || (n =? 160).

Definition digit_value (c : ascii) : option Z :=
  let n := ord c in
  if (48 <=? n) && (n <=? 57) then Some (n - 48) else None.

Fixpoint lstrip (s : string) : string :=
  match s with
  | EmptyString => EmptyString
  | String c s' => if int_whitespace c then lstrip s' else s
  end.

Fixpoint all_space (s : string) : bool :=
  match s with
  | EmptyString => true
  | String c s' => int_whitespace c && all_space s'
  end.

(** What the scanner saw last. *)
Inductive scanned := AtStart | AfterDigit | AfterUnderscore.

Fixpoint int_digits (prev : scanned) (acc : Z) (s : string) : option Z :=
  match s with
  | EmptyString =>
      match prev with AfterDigit => Some acc | _ => None end
  | String c s' =>
      match digit_value c with
      | Some d => int_digits AfterDigit (10 * acc + d) s'
      | None =>
          if decide (c = "_"%char) then
            match prev with
            | AfterDigit => int_digits AfterUnderscore acc s'
            | _ => None
            end
          else
            match prev with
            | AfterDigit => if all_space s then Some acc else None
            | _ => None
            end
      end
  end.

(** sys.int_info.default_max_str_digits *)
Definition int_max_str_digits : Z := 4300.

(** The digits in a string. *)
Fixpoint count_digits (s : string) : Z :=
  match s with
  | EmptyString => 0
  | String c s' =>
      (match digit_value c with Some _ => 1 | None => 0 end) + count_digits s'
  end.

Definition int_literal (s : string) : option Z :=
  if count_digits s >? int_max_str_digits then None else
  match lstrip s with
  | EmptyString => None
  | String c s' =>
      if decide (c = "+"%char) then int_digits AtStart 0 s'
      else if decide (c = "-"%char) then Z.opp <$> int_digits AtStart 0 s'
      else int_digits AtStart 0 (String c s')
  end.

Definition int (s : string) : M Z :=
  match int_literal s with
  | Some n => mret n
  | None => raise (ValueError (invalid_literal s))
  end.

(** *** random.SystemRandom().choice(seq): IndexError on an empty
    sequence, and otherwise the element of seq at an index below len(seq)
    got from the entropy source.  How many bytes the generator asks the
    operating system for until it has such an index is not modelled: a draw
    stands for one index, and every index below len(seq) can come out. *)
Definition choice {A} (seq : list A) : M A := λ w,
  match seq !! (entropy w (drawn w) `mod` length seq)%nat with
  | Some x => (Return x, mkWorld (ENV w) (entropy w) (S (drawn w)))
  | None => (Raise IndexError, w)
  end.

(** len(l) *)
Definition len {A} (l : list A) : Z := Z.of_nat (length l).

(** range(n) *)
Definition range (n : Z) : list Z := seqZ 0 n.

(** str.join with the empty separator *)
Definition join (chars : list ascii) : string :=
  foldr String EmptyString chars.

Definition ascii_letters : string :=
  "abcdefghijklmnopqrstuvwxyzABCDEFGHIJKLMNOPQRSTUVWXYZ".
Definition digits : string := "0123456789".

(** ENV[key] = value *)
Definition ENV_setitem (key : string) (v : value) : M unit := λ w,
  (Return (), mkWorld (<[key := v]> (ENV w)) (entropy w) (drawn w)).

(** del ENV[key] *)
Definition ENV_delitem (key : string) : M unit := λ w,
  match ENV w !! key with
  | Some _ => (Return (), mkWorld (delete key (ENV w)) (entropy w) (drawn w))
  | None => (Raise (KeyError key), w)
  end.

End Py.
Import Py.

(** ** The functions of utils.py *)

(** def make_password(length=16): an omitted argument is [None]. *)
Definition make_password (length : option Z) : M string :=
  let length := default 16 length in
  chars ← mapM (λ _, choice (list_ascii_of_string (ascii_letters +:+ digits)))
               (range length);
  mret (join chars).

(** @contextlib.contextmanager def settings, taking keyword arguments
    only (the association list [kwargs], in the order given), used as
    [with settings(...): body].  The generator runs up to its yield on
    entry and from it on normal exit; an exception raised by the body is
    thrown into the generator at the yield, which does not catch it, so
    the statements after the yield are skipped. *)
Definition settings_enter (kwargs : list (string * value)) : M unit :=
  for_in kwargs (λ '(key, value) _, ENV_setitem key value) ().

Definition settings_exit (kwargs : list (string * value)) : M unit :=
  for_in (kwargs.*1) (λ key _, ENV_delitem key) ().

Definition settings {A} (kwargs : list (string * value)) (body : M A) : M A :=
  settings_enter kwargs;;
  a ← body;
  settings_exit kwargs;;
  mret a.

Definition convert_version_to_int (version : string) : M Z :=
  let number_bits := [8; 8; 16] in
  numbers ← mapM (λ number_string, int number_string) (split "." version);
  if len numbers >? len number_bits then
    raise (NotImplementedError (too_many_places (len number_bits - 1)))
  else
    (* add 0s for missing numbers *)
    let numbers :=
      numbers ++ replicate (Z.to_nat (len number_bits - len numbers)) 0 in
    (* convert to single int and return *)
    '(number, total_bits) ←
      for_in (reverse (zip numbers number_bits))
        (λ '(num, bits) '(number, total_bits),
           let max_num := (bits + 1) - 1 in
           if num >=? 1 ≪ max_num then
             raise (ValueError (cannot_store num bits max_num))
           else
             mret (number + (num ≪ total_bits), total_bits + bits))
        (0, 0);
    mret number.

(** ** Vocabulary of the specification *)

Abbreviation chars := list_ascii_of_string.

(** The characters an integer literal is made of. *)
Definition literal_char (c : ascii) : bool :=
  int_whitespace c || bool_decide (is_Some (digit_value c))
  || bool_decide (c = "_"%char) || bool_decide (c = "+"%char)
  || bool_decide (c = "-"%char).


Definition is_OutOfRangeError {A} (r : result A) : bool :=
  match r with Raise (ValueError (cannot_store _ _ _)) => true | _ => false end.

Definition is_UnsupportedVersionFormat {A} (r : result A) : bool :=
  match r with Raise (NotImplementedError _) => true | _ => false end.

(** The specification's "valid non-negative integer", read generously:
    a piece that int() reads, as a number that is not negative. *)
Definition valid_non_negative_integer (piece : string) : bool :=
  match int_literal piece with
  | Some n => 0 <=? n
  | None => false
  end.

(** The specification's EncodedVersion: whatever is returned is a number
    that is not negative. *)
Definition non_negative_result (r : result Z) : bool :=
  match r with
  | Return n => 0 <=? n
  | Raise _ => true
  end.

(** An ASCII letter or a decimal digit. *)
Definition alphanumeric (c : ascii) : bool :=
  let n := ord c in
  ((48 <=? n) && (n <=? 57)) || ((65 <=? n) && (n <=? 90))
  || ((97 <=? n) && (n <=? 122)).

(** The state of a fresh interpreter that has just imported the module:
    [ENV = {}]; the entropy source is an arbitrary fixed one. *)
Definition initial_world : World := mkWorld ∅ (λ n, n) 0%nat.

(** ** exec_cmd and what it needs *)

(** subprocess.PIPE *)
Definition PIPE : value := VInt (-1).

(** bool(v), the truth value Python gives [v] in a condition. *)
Definition truth (v : value) : bool :=
  match v with
  | VNone => false
  | VBool b => b
  | VInt n => negb (n =? 0)
  | VStr s => negb (String.eqb s EmptyString)
  end.

(** str(v), what a pair of braces of str.format puts in for [v]. *)
Definition str (v : value) : string :=
  match v with
  | VNone => "None"
  | VBool true => "True"
  | VBool false => "False"
  | VInt n => pretty n
  | VStr s => s
  end.

(** ENV.get(key, default) *)
Definition ENV_get (key : string) (dflt : value) : M value := λ w,
  (Return (default dflt (ENV w !! key)), w).

(** One use of subprocess.Popen by exec_cmd: the command line, the keyword
    arguments, and what is done with the process: communicate with the
    arguments c_args ([Some c_args]) or wait ([None]). *)
Record Popen_call := mkCall {
  call_cmd : string;
  call_kwargs : gmap string value;
  call_communicate : option (list value)
}.

(** What comes of a call when the operating system answers it with
    [os call].  The answer is an exception that Popen, communicate or wait
    raises (OSError for a program that cannot be run, TypeError for an
    option or an input Popen does not take, ...), which exec_cmd lets
    through; or the process's return code with what communicate gave as
    standard output, and then exec_cmd returns that pair, with None for the
    output after wait. *)
Definition outcome (os : Popen_call → result (Z * value)) (call : Popen_call)
    : result (Z * value) :=
  match os call with
  | Return (returncode, output) =>
      Return (returncode,
              match call_communicate call with
              | Some _ => output
              | None => VNone
              end)
  | Raise e => Raise e
  end.

(** subprocess.Popen on cmd and kwargs, followed by communicate or wait: the state of
    the interpreter stays as it is. *)
Definition run_process (os : Popen_call → result (Z * value))
    (call : Popen_call) : M (Z * value) := λ w, (outcome os call, w).

(** def exec_cmd, with the parameters cmd, sudo_user=None, pinput=None,
    login=True and further keyword arguments [kwargs].
    The operating system is the parameter [os]: what it answers to the
    call made, an exception included.  An omitted sudo_user or pinput is
    [VNone], an omitted login is [true]. *)
Definition exec_cmd (os : Popen_call → result (Z * value)) (cmd : string)
    (sudo_user pinput : value) (login : bool) (kwargs : gmap string value)
    : M (Z * value) :=
  sudo_user ← ENV_get "sudo_user" sudo_user;
  let cmd :=
    match sudo_user with
    | VNone => cmd
    | _ => "sudo " +:+ (if login then "-i " else "") +:+ "-u "
             +:+ str sudo_user +:+ " " +:+ cmd
    end in
  let kwargs :=
    match kwargs !! "shell" with
    | None => <["shell" := VBool true]> kwargs
    | Some _ => kwargs
    end in
  let kwargs :=
    match pinput with
    | VNone => kwargs
    | _ => <["stdin" := PIPE]> kwargs
    end in
  '(capture_output, kwargs) ←
    match kwargs !! "capture_output" with
    | Some v => mret (v, delete "capture_output" kwargs)
    | None =>
        debug ← ENV_get "debug" VNone;
        mret (if negb (truth debug) then VBool true else VBool false, kwargs)
    end;
  let kwargs :=
    if truth capture_output
    then <["stderr" := PIPE]> (<["stdout" := PIPE]> kwargs)
    else kwargs in
  if truth pinput || truth capture_output then
    let c_args := match pinput with VNone => [] | _ => [pinput] end in
    run_process os (mkCall cmd kwargs (Some c_args))
  else
    run_process os (mkCall cmd kwargs None).

(** ** Vocabulary of the properties *)

(** The components of a version: the numbers int() reads in its pieces,
    at most three of them, with 0 for each missing one. *)
Definition components (version : string) : option (list Z) :=
  ns ← mapM int_literal (split "." version);
  if decide (length ns ≤ 3)%nat
  then Some (ns ++ replicate (3 - length ns) 0)
  else None.

(** Versions compared component by component, the first one first. *)
Definition version_lt (v v' : list Z) : Prop :=
  match v, v' with
  | [a; b; c], [a'; b'; c'] =>
      a < a' ∨ (a = a' ∧ (b < b' ∨ (b = b' ∧ c < c')))
  | _, _ => False
  end.

(** The characters make_password draws from. *)
Definition alphabet : list ascii := chars (ascii_letters +:+ digits).

(** ** Strings and their characters *)

Section split_facts.
Variable sep : ascii.

Lemma split_nonempty s : split sep s ≠ [].
Proof. destruct s as [|c s]; simpl; [done|]. case_decide; [done|]. by destruct (split sep s). Qed.

Lemma split_no_sep p : sep ∉ chars p → split sep p = [p].
Proof.
  induction p as [|c p IH]; simpl; [done|].
  rewrite not_elem_of_cons. intros [Hc Hp].
  rewrite decide_False by done. by rewrite IH.
Qed.

Lemma split_app p rest :
  sep ∉ chars p → split sep (p +:+ String sep rest) = p :: split sep rest.
Proof.
  induction p as [|c p IH]; simpl.
  - intros _. by rewrite decide_True.
  - rewrite not_elem_of_cons. intros [Hc Hp].
    rewrite decide_False by done. by rewrite IH.
Qed.

Lemma split_snoc s p :
  sep ∉ chars p → split sep (s +:+ String sep p) = split sep s ++ [p].
Proof.
  intros Hp. induction s as [|c s IH]; simpl.
  - rewrite decide_True by done. by rewrite split_no_sep.
  - case_decide; rewrite IH; [done|].
    pose proof (split_nonempty s). by destruct (split sep s).
Qed.
End split_facts.

(** ** What int() accepts *)

Lemma all_space_chars s c : all_space s = true → c ∈ chars s → int_whitespace c = true.
Proof.
induction s as [|a s IH]; simpl.
- intros _ H. by apply elem_of_nil in H.
- intros [Ha Hs]%andb_true_iff [->|H]%elem_of_cons; auto.
Qed.

Lemma int_digits_chars prev acc s n c :
  int_digits prev acc s = Some n → c ∈ chars s → literal_char c = true.
Proof.
revert prev acc. induction s as [|a s IH]; simpl; intros prev acc Hn Hc.
- by apply elem_of_nil in Hc.
- destruct (digit_value a) as [d|] eqn:Hd.
  + apply elem_of_cons in Hc as [->|Hc]; [|by eapply IH].
    unfold literal_char. rewrite (bool_decide_eq_true_2 (is_Some _)) by (by rewrite Hd).
    by rewrite orb_true_r.
  + case_decide as Hu.
    * destruct prev; try done.
      apply elem_of_cons in Hc as [->|Hc]; [|by eapply IH].
      subst a. reflexivity.
    * destruct prev; try done.
      destruct (int_whitespace a && all_space s) eqn:Hsp; [|done].
      unfold literal_char.
      rewrite (all_space_chars (String a s) c); [done|done|done].
Qed.

Lemma lstrip_chars s c :
  c ∈ chars s → int_whitespace c = true ∨ c ∈ chars (lstrip s).
Proof.
induction s as [|a s IH]; simpl; [by intros ?%elem_of_nil|].
destruct (int_whitespace a) eqn:Ha.
- intros [->|H]%elem_of_cons; auto.
- auto.
Qed.

Lemma int_literal_chars s n c :
  int_literal s = Some n → c ∈ chars s → literal_char c = true.
Proof.
unfold int_literal. destruct (count_digits s >? int_max_str_digits); [done|].
intros Hn [Hc|Hc]%lstrip_chars.
{ unfold literal_char. by rewrite Hc. }
destruct (lstrip s) as [|a t]; [by apply elem_of_nil in Hc|].
repeat case_decide; subst.
- apply elem_of_cons in Hc as [->|Hc]; [done|]. by eapply int_digits_chars.
- apply elem_of_cons in Hc as [->|Hc]; [done|].
  destruct (int_digits AtStart 0 t) eqn:Ht; [|done]. by eapply int_digits_chars.
- by eapply int_digits_chars.
Qed.

(** What int() reads and what it refuses, at the edges of the grammar:
    signs, underscores, zeros and surrounding white space are read; a
    separator character (28) is no white space; the empty string, doubled
    underscores and inner spaces are refused. *)
Lemma int_literal_examples :
  int_literal " +1_0 " = Some 10 ∧ int_literal "-2" = Some (-2)
  ∧ int_literal "007" = Some 7
  ∧ int_literal (String (ascii_of_nat 160) "1") = Some 1
  ∧ int_literal (String (ascii_of_nat 28) "1") = None
  ∧ int_literal "" = None ∧ int_literal "1__0" = None
  ∧ int_literal "1 2" = None ∧ int_literal "+ 1" = None.
Proof. repeat split. Qed.

(** 4300 digits are read, 4301 are not. *)
Lemma int_literal_digit_limit :
  int_literal (string_of_list_ascii (replicate 4300 "0"%char)) = Some 0
  ∧ int_literal (string_of_list_ascii (replicate 4301 "0"%char)) = None.
Proof. split; vm_compute; reflexivity. Qed.

(** A piece that int() accepts holds no dot. *)
Lemma int_literal_no_dot s n : int_literal s = Some n → "."%char ∉ chars s.
Proof. intros Hn Hc. by pose proof (int_literal_chars _ _ _ Hn Hc). Qed.

(** ** Running the module's functions *)

Lemma bind_run {A B} (m : M A) (f : A → M B) w :
  (m ≫= f) w =
  match m w with (Return a, w') => f a w' | (Raise e, w') => (Raise e, w') end.
Proof. reflexivity. Qed.

Lemma int_run s w :
  int s w = (match int_literal s with
             | Some n => Return n
             | None => Raise (ValueError (invalid_literal s))
             end, w).
Proof. unfold int. by destruct (int_literal s). Qed.

(** The list comprehension over the pieces: all of them parse, or the
    first that does not raises. *)
Lemma mapM_int_ok ps ns w :
  Forall2 (λ p n, int_literal p = Some n) ps ns →
  mapM int ps w = (Return ns, w).
Proof.
induction 1 as [|p n ps ns Hp _ IH]; [done|].
cbn. rewrite bind_run, int_run, Hp. rewrite bind_run, IH. done.
Qed.

Lemma mapM_int_fail good bad rest w :
  Forall (λ p, is_Some (int_literal p)) good →
  int_literal bad = None →
  mapM int (good ++ bad :: rest) w = (Raise (ValueError (invalid_literal bad)), w).
Proof.
intros Hgood Hbad. induction Hgood as [|p good [n Hp] _ IH]; cbn.
- by rewrite bind_run, int_run, Hbad.
- rewrite bind_run, int_run, Hp. by rewrite bind_run, IH.
Qed.

Lemma pieces_cases ps :
  (∃ ns, Forall2 (λ p n, int_literal p = Some n) ps ns) ∨
  (∃ good bad rest, ps = good ++ bad :: rest ∧
     Forall (λ p, is_Some (int_literal p)) good ∧ int_literal bad = None).
Proof.
induction ps as [|p ps IH]; [left; by exists []|].
destruct (int_literal p) as [n|] eqn:Hp.
- destruct IH as [[ns Hns]|(good & bad & rest & -> & Hgood & Hbad)].
  + left. exists (n :: ns). by constructor.
  + right. exists (p :: good), bad, rest. split_and!; [done| |done].
    constructor; [by rewrite Hp|done].
- right. by exists [], p, ps.
Qed.

Lemma convert_run_bad version good bad rest w :
  split "." version = good ++ bad :: rest →
  Forall (λ p, is_Some (int_literal p)) good →
  int_literal bad = None →
  convert_version_to_int version w =
    (Raise (ValueError (invalid_literal bad)), w).
Proof.
intros Hsplit Hgood Hbad. unfold convert_version_to_int.
cbv zeta. rewrite bind_run, Hsplit, mapM_int_fail; done.
Qed.

Lemma convert_run_many version ns w :
  Forall2 (λ p n, int_literal p = Some n) (split "." version) ns →
  (3 < length ns)%nat →
  convert_version_to_int version w =
    (Raise (NotImplementedError (too_many_places 2)), w).
Proof.
intros Hns Hlen. unfold convert_version_to_int.
cbv zeta. rewrite bind_run, (mapM_int_ok _ ns) by done.
replace (len ns >? len [8; 8; 16]) with true; [done|].
symmetry. unfold len. simpl length. apply Z.gtb_lt. lia.
Qed.

Lemma convert_run_ok version ns a b c w :
  Forall2 (λ p n, int_literal p = Some n) (split "." version) ns →
  ns ++ replicate (3 - length ns) 0 = [a; b; c] →
  convert_version_to_int version w =
    (if c >=? 65536 then Raise (ValueError (cannot_store c 16 16))
     else if b >=? 256 then Raise (ValueError (cannot_store b 8 8))
     else if a >=? 256 then Raise (ValueError (cannot_store a 8 8))
     else Return (a * 2 ^ 24 + b * 2 ^ 16 + c), w).
Proof.
intros Hns Hpad.
assert (length ns ≤ 3)%nat as Hlen.
{ apply (f_equal length) in Hpad. rewrite length_app, length_replicate in Hpad.
  simpl in Hpad. lia. }
unfold convert_version_to_int.
cbv zeta. rewrite bind_run, (mapM_int_ok _ ns) by done.
replace (len ns >? len [8; 8; 16]) with false.
2:{ symmetry. unfold len. simpl length. rewrite Z.gtb_ltb. apply Z.ltb_ge. lia. }
replace (Z.to_nat (len [8; 8; 16] - len ns)) with (3 - length ns)%nat
  by (unfold len; simpl length; lia).
rewrite Hpad. cbn [zip zip_with reverse rev_append for_in].
rewrite !bind_run.
change (1 ≪ (16 + 1 - 1)) with 65536. change (1 ≪ (8 + 1 - 1)) with 256.
change (16 + 1 - 1) with 16. change (8 + 1 - 1) with 8.
destruct (c >=? 65536); [done|]. cbn -[Z.shiftl Z.add Z.geb Z.mul Z.pow].
rewrite bind_run.
destruct (b >=? 256); [done|]. cbn -[Z.shiftl Z.add Z.geb Z.mul Z.pow].
rewrite bind_run.
destruct (a >=? 256); [done|]. cbn -[Z.shiftl Z.add Z.geb Z.mul Z.pow].
unfold mret, M_ret. do 2 f_equal.
rewrite !Z.shiftl_mul_pow2 by lia. change (0 + 16 + 8) with 24.
change (0 + 16) with 16. lia.
Qed.

Lemma geb_false n m : n < m → (n >=? m) = false.
Proof. intros. rewrite Z.geb_leb. by apply Z.leb_gt. Qed.

Lemma geb_true n m : m ≤ n → (n >=? m) = true.
Proof. intros. rewrite Z.geb_leb. by apply Z.leb_le. Qed.

Lemma padded_three (ns : list Z) :
  (length ns ≤ 3)%nat →
  ∃ a b c, ns ++ replicate (3 - length ns) 0 = [a; b; c].
Proof.
destruct ns as [|a [|b [|c [|d ns]]]]; simpl; intros Hlen;
  [by exists 0, 0, 0|by exists a, 0, 0|by exists a, b, 0|by exists a, b, c|lia].
Qed.

(** ** The version encoder *)

(** C1: a version of three pieces that int() reads as c1, c2, c3, with
    c1 < 2^8, c2 < 2^8 and c3 < 2^16 (none negative), is encoded as
    c1*2^24 + c2*2^16 + c3, leaving the state as it was; the three numbers
    are the bit fields of widths 8, 8 and 16 of the result, most significant
    first; and "1.2.3" gives 16908291. *)
Theorem convert_version_to_int_packs (p1 p2 p3 : string) (c1 c2 c3 : Z) (w : World) :
  int_literal p1 = Some c1 → int_literal p2 = Some c2 → int_literal p3 = Some c3 →
  0 ≤ c1 < 256 → 0 ≤ c2 < 256 → 0 ≤ c3 < 65536 →
  let encoded := c1 * 2 ^ 24 + c2 * 2 ^ 16 + c3 in
  convert_version_to_int (p1 +:+ "." +:+ p2 +:+ "." +:+ p3) w = (Return encoded, w)
  ∧ (encoded ≫ 24 = c1 ∧ Z.land (encoded ≫ 16) (Z.ones 8) = c2
     ∧ Z.land encoded (Z.ones 16) = c3)
  ∧ convert_version_to_int "1.2.3" w = (Return 16908291, w).
Proof.
intros H1 H2 H3 R1 R2 R3 encoded. split_and!.
- rewrite (convert_run_ok _ [c1; c2; c3] c1 c2 c3); [|..|done].
  + by rewrite !geb_false by lia.
  + change ("." +:+ p2 +:+ "." +:+ p3) with (String "." (p2 +:+ String "." p3)).
    rewrite split_app by (by eapply int_literal_no_dot).
    rewrite split_app by (by eapply int_literal_no_dot).
    rewrite split_no_sep by (by eapply int_literal_no_dot).
    by repeat constructor.
- unfold encoded. rewrite Z.shiftr_div_pow2 by lia.
  symmetry. apply Z.div_unique with (r := c2 * 2 ^ 16 + c3); lia.
- unfold encoded. rewrite Z.land_ones, Z.shiftr_div_pow2 by lia.
  replace ((c1 * 2 ^ 24 + c2 * 2 ^ 16 + c3) / 2 ^ 16) with (c1 * 2 ^ 8 + c2).
  + rewrite Z.add_comm, Z.mod_add by lia. apply Z.mod_small. lia.
  + apply Z.div_unique with (r := c3); lia.
- unfold encoded. rewrite Z.land_ones by lia.
  replace (c1 * 2 ^ 24 + c2 * 2 ^ 16 + c3) with (c3 + (c1 * 2 ^ 8 + c2) * 2 ^ 16) by lia.
  rewrite Z.mod_add by lia. apply Z.mod_small. lia.
- reflexivity.
Qed.

Lemma convert_version_to_int_packs_witness :
  convert_version_to_int "10.20.300" initial_world =
    (Return 169083180, initial_world).
Proof.
exact (proj1 (convert_version_to_int_packs "10" "20" "300" 10 20 300
  initial_world eq_refl eq_refl eq_refl
  ltac:(lia) ltac:(lia) ltac:(lia))).
Defined.

(** C2 (as the code has it): max_num is (bits + 1) - 1 = bits, and the
    range check compares the component with 1 << max_num = 2^bits.  For the
    first, 8-bit component: a version p.0.0 whose first piece reads as a
    number c that is not negative is refused exactly when c >= 256, with
    max_num = 8 in the message, and is encoded as c * 2^24 otherwise;
    "9.0.0" is encoded as 150994944. *)
Theorem range_check_first_component (p : string) (c : Z) (w : World) :
  int_literal p = Some c → 0 ≤ c →
  convert_version_to_int (p +:+ ".0.0") w =
    (if c >=? 256 then Raise (ValueError (cannot_store c 8 8))
     else Return (c * 2 ^ 24), w)
  ∧ convert_version_to_int "9.0.0" w = (Return 150994944, w).
Proof.
intros Hp _. split; [|reflexivity].
rewrite (convert_run_ok _ [c; 0; 0] c 0 0); [|..|done].
- change (0 >=? 65536) with false. change (0 >=? 256) with false. cbv iota.
  destruct (c >=? 256); [done|]. do 2 f_equal. lia.
- change (p +:+ ".0.0") with (p +:+ String "." "0.0").
  rewrite split_app by (by eapply int_literal_no_dot).
  by repeat constructor.
Qed.

Lemma range_check_first_component_witness :
  convert_version_to_int "200.0.0" initial_world =
    (Return 3355443200, initial_world).
Proof.
exact (proj1 (range_check_first_component "200" 200 initial_world eq_refl
  ltac:(lia))).
Defined.

(** C2, as the specification words it, fails: "9.0.0" does not raise the
    out-of-range error, it returns. *)
Lemma nine_is_not_out_of_range :
  is_OutOfRangeError (convert_version_to_int "9.0.0" initial_world).1 = false
  ∧ (convert_version_to_int "9.0.0" initial_world).1 = Return 150994944.
Proof. split; reflexivity. Qed.

Lemma range_outcome (a b c : Z) :
  is_OutOfRangeError
    (if c >=? 65536 then Raise (ValueError (cannot_store c 16 16))
     else if b >=? 256 then Raise (ValueError (cannot_store b 8 8))
     else if a >=? 256 then Raise (ValueError (cannot_store a 8 8))
     else Return (a * 2 ^ 24 + b * 2 ^ 16 + c)) = true
  ↔ a > 255 ∨ b > 255 ∨ c > 65535.
Proof.
destruct (Z_lt_le_dec c 65536); [rewrite (geb_false c) by done|
  rewrite (geb_true c) by done; simpl; split; [lia|done]].
destruct (Z_lt_le_dec b 256); [rewrite (geb_false b) by done|
  rewrite (geb_true b) by done; simpl; split; [lia|done]].
destruct (Z_lt_le_dec a 256); [rewrite (geb_false a) by done|
  rewrite (geb_true a) by done; simpl; split; [lia|done]].
simpl. split; [done|lia].
Qed.

Lemma exceeds_slot_iff (ns : list Z) (a b c : Z) :
  ns ++ replicate (3 - length ns) 0 = [a; b; c] →
  (∃ (i : nat) n bits,
      ns !! i = Some n ∧ [8; 8; 16] !! i = Some bits ∧ n > 2 ^ bits - 1)
  ↔ a > 255 ∨ b > 255 ∨ c > 65535.
Proof.
intros Hpad. split.
- intros (i & n & bits & Hn & Hbits & Hgt).
  destruct i as [|[|[|i]]]; simpl in Hbits; simplify_eq;
    destruct ns as [|x [|y [|z ns]]]; simplify_eq/=; lia.
- destruct ns as [|x [|y [|z [|t ns]]]]; simplify_eq/=; intros [H|[H|H]]; try lia.
  all: first [ by exists 0%nat, a, 8 | by exists 1%nat, b, 8
             | by exists 2%nat, c, 16 ].
Qed.

(** C3: for a version of at most three pieces, all read by int(), the
    out-of-range error is raised exactly when some component is above the
    largest value of its slot, 2^bits - 1 with bits taken from (8, 8, 16);
    "256.0.0" raises it and "255.0.0" is encoded. *)
Theorem out_of_range_exactly_above_slot_maximum
    (version : string) (ns : list Z) (w : World) :
  Forall2 (λ p n, int_literal p = Some n) (split "." version) ns →
  (length ns ≤ 3)%nat →
  (is_OutOfRangeError (convert_version_to_int version w).1 = true
   ↔ ∃ (i : nat) n bits,
       ns !! i = Some n ∧ [8; 8; 16] !! i = Some bits ∧ n > 2 ^ bits - 1)
  ∧ convert_version_to_int "256.0.0" w =
      (Raise (ValueError (cannot_store 256 8 8)), w)
  ∧ convert_version_to_int "255.0.0" w = (Return 4278190080, w).
Proof.
intros Hns Hlen. split_and!; [|reflexivity..].
destruct (padded_three ns Hlen) as (a & b & c & Hpad).
rewrite (convert_run_ok version ns a b c) by done.
cbn [fst]. by rewrite range_outcome, exceeds_slot_iff.
Qed.

Lemma out_of_range_exactly_above_slot_maximum_witness :
  is_OutOfRangeError (convert_version_to_int "1.300" initial_world).1 = true
  ↔ ∃ (i : nat) n bits,
      [1; 300] !! i = Some n ∧ [8; 8; 16] !! i = Some bits ∧ n > 2 ^ bits - 1.
Proof.
refine (proj1 (out_of_range_exactly_above_slot_maximum "1.300" [1; 300]
  initial_world _ _)).
- repeat constructor.
- simpl. lia.
Defined.




Lemma no_range_outcome_is_unsupported (a b c : Z) :
  is_UnsupportedVersionFormat
    (if c >=? 65536 then Raise (ValueError (cannot_store c 16 16))
     else if b >=? 256 then Raise (ValueError (cannot_store b 8 8))
     else if a >=? 256 then Raise (ValueError (cannot_store a 8 8))
     else Return (a * 2 ^ 24 + b * 2 ^ 16 + c)) = false.
Proof. by repeat case_match. Qed.

(** C5 (as the code has it): the call raises NotImplementedError (the
    specification's UnsupportedVersionFormat) if and only if every piece is
    an integer literal for int() and there are more than three pieces;
    "1.2.3.4" raises it. *)
Theorem unsupported_iff_readable_and_too_long (version : string) (w : World) :
  (is_UnsupportedVersionFormat (convert_version_to_int version w).1 = true
   ↔ Forall (λ p, is_Some (int_literal p)) (split "." version)
     ∧ (3 < length (split "." version))%nat)
  ∧ convert_version_to_int "1.2.3.4" w =
      (Raise (NotImplementedError (too_many_places 2)), w).
Proof.
split; [|reflexivity].
destruct (pieces_cases (split "." version))
  as [[ns Hns]|(good & bad & rest & Hsplit & Hgood & Hbad)].
- assert (Forall (λ p, is_Some (int_literal p)) (split "." version)) as Hall.
  { clear -Hns. induction Hns; constructor; eauto. }
  rewrite (Forall2_length _ _ _ Hns).
  destruct (decide (3 < length ns)%nat) as [Hlen|Hlen].
  + by rewrite (convert_run_many version ns) by done.
  + destruct (padded_three ns) as (a & b & c & Hpad); [lia|].
    rewrite (convert_run_ok version ns a b c) by done.
    cbn [fst]. rewrite no_range_outcome_is_unsupported. split; [done|tauto].
- rewrite (convert_run_bad version good bad rest) by done.
  cbn. split; [done|]. intros [Hall _]. rewrite Hsplit in Hall.
  apply Forall_app in Hall as [_ Hall]. apply Forall_cons in Hall as [[? Hsome] _].
  congruence.
Qed.

(** C5, as the specification words it, fails: "1.a.3.4" has four pieces
    and raises the ValueError of int(), not NotImplementedError. *)
Lemma four_pieces_format_error_first :
  (3 < length (split "." "1.a.3.4"))%nat
  ∧ is_UnsupportedVersionFormat
      (convert_version_to_int "1.a.3.4" initial_world).1 = false
  ∧ (convert_version_to_int "1.a.3.4" initial_world).1 =
      Raise (ValueError (invalid_literal "a")).
Proof. split_and!; [simpl; lia|reflexivity..]. Qed.

(** C6: a version of fewer than three pieces gives what the same version
    followed by ".0" gives (the same number, or the same exception), in
    every state; "1.2" and "1.2.0" agree, and so do "5" and "5.0.0". *)
Theorem missing_trailing_component_is_zero (version : string) (w : World) :
  (length (split "." version) < 3)%nat →
  convert_version_to_int version w = convert_version_to_int (version +:+ ".0") w
  ∧ convert_version_to_int "1.2" w = convert_version_to_int "1.2.0" w
  ∧ convert_version_to_int "5" w = convert_version_to_int "5.0.0" w.
Proof.
intros Hlen. split_and!; [|reflexivity..].
assert (split "." (version +:+ ".0") = split "." version ++ ["0"%string]) as Hsnoc.
{ change (version +:+ ".0") with (version +:+ String "." "0").
  apply split_snoc. by eapply (int_literal_no_dot _ 0). }
destruct (pieces_cases (split "." version))
  as [[ns Hns]|(good & bad & rest & Hsplit & Hgood & Hbad)].
- rewrite (Forall2_length _ _ _ Hns) in Hlen.
  destruct (padded_three ns) as (a & b & c & Hpad); [lia|].
  rewrite (convert_run_ok version ns a b c) by done.
  rewrite (convert_run_ok _ (ns ++ [0]) a b c); [done| |].
  + rewrite Hsnoc. apply Forall2_app; [done|]. by repeat constructor.
  + rewrite <-Hpad, <-(assoc_L (++)), length_app. simpl.
    replace (3 - length ns)%nat with (S (3 - (length ns + 1))) by lia. done.
- rewrite (convert_run_bad version good bad rest) by done.
  rewrite (convert_run_bad _ good bad (rest ++ ["0"%string])); [done| |done..].
  by rewrite Hsnoc, Hsplit, <-(assoc_L (++)).
Qed.

Lemma missing_trailing_component_is_zero_witness :
  convert_version_to_int "7.1" initial_world =
    convert_version_to_int "7.1.0" initial_world.
Proof.
refine (proj1 (missing_trailing_component_is_zero "7.1" initial_world _)).
simpl. lia.
Defined.

(** C7, at the input where the code departs from it: int() reads "-1.0.0"
    as -1, 0, 0, the range check has no lower bound, and the call returns
    the negative number -16777216. *)
Theorem negative_component_gives_negative_result :
  convert_version_to_int "-1.0.0" initial_world =
    (Return (-16777216), initial_world)
  ∧ non_negative_result (convert_version_to_int "-1.0.0" initial_world).1 = false.
Proof. split; reflexivity. Qed.

(** Away from that input the encoded version is as the specification has
    it: when no component is negative, what is returned is not negative. *)
Lemma non_negative_components_give_non_negative_result
    (version : string) (ns : list Z) (w : World) :
  Forall2 (λ p n, int_literal p = Some n) (split "." version) ns →
  Forall (λ n, 0 ≤ n) ns →
  non_negative_result (convert_version_to_int version w).1 = true.
Proof.
intros Hns Hpos.
destruct (decide (3 < length ns)%nat) as [Hlen|Hlen].
{ by rewrite (convert_run_many version ns) by done. }
destruct (padded_three ns) as (a & b & c & Hpad); [lia|].
rewrite (convert_run_ok version ns a b c) by done. cbn [fst].
assert (0 ≤ a ∧ 0 ≤ b ∧ 0 ≤ c) as (Ha & Hb & Hc).
{ assert (Forall (λ n, 0 ≤ n) [a; b; c]) as H3.
  { rewrite <-Hpad. apply Forall_app. split; [done|]. by apply Forall_replicate. }
  by inversion H3 as [|? ? ? Hbc]; inversion Hbc as [|? ? ? Hc']; inversion Hc'. }
repeat case_match; try done. simpl. apply Z.leb_le. lia.
Qed.

(** C8: a call neither changes the state nor depends on it: in every state
    it gives one and the same result and hands the state back untouched,
    so two calls on the same input agree. *)
Theorem convert_version_to_int_is_pure (version : string) :
  ∃ r, ∀ w : World, convert_version_to_int version w = (r, w).
Proof.
destruct (pieces_cases (split "." version))
  as [[ns Hns]|(good & bad & rest & Hsplit & Hgood & Hbad)].
- destruct (decide (3 < length ns)%nat) as [Hlen|Hlen].
  + eexists. intros w. by apply (convert_run_many version ns).
  + destruct (padded_three ns) as (a & b & c & Hpad); [lia|].
    eexists. intros w. by apply (convert_run_ok version ns a b c).
- eexists. intros w. by apply (convert_run_bad version good bad rest).
Qed.

(** ** Passwords *)

Lemma choice_run {A} (seq : list A) (w : World) :
  seq ≠ [] →
  ∃ x, x ∈ seq
    ∧ choice seq w = (Return x, mkWorld (ENV w) (entropy w) (S (drawn w))).
Proof.
intros Hne. unfold choice.
destruct (lookup_lt_is_Some_2 seq (entropy w (drawn w) `mod` length seq)%nat)
  as [x Hx].
{ apply Nat.mod_upper_bound. by destruct seq. }
rewrite Hx. exists x. split; [|done]. by eapply list_elem_of_lookup_2.
Qed.

Lemma mapM_choice_run {A B} (seq : list A) (l : list B) (w : World) :
  seq ≠ [] →
  ∃ xs, length xs = length l ∧ Forall (λ x, x ∈ seq) xs
    ∧ mapM (λ _, choice seq) l w =
        (Return xs, mkWorld (ENV w) (entropy w) (drawn w + length l)).
Proof.
intros Hne. revert w. induction l as [|y l IH]; intros w.
- exists []. split_and!; [done|done|]. cbn. unfold mret, M_ret.
  destruct w; simpl. by rewrite Nat.add_0_r.
- destruct (choice_run seq w Hne) as (x & Hx & Hrun).
  destruct (IH (mkWorld (ENV w) (entropy w) (S (drawn w)))) as (xs & Hlen & Hxs & Hruns).
  exists (x :: xs). split_and!; [simpl; by rewrite Hlen|by constructor|].
  cbn. rewrite bind_run, Hrun. rewrite bind_run, Hruns. cbn.
  unfold mret, M_ret. do 2 f_equal. lia.
Qed.

Lemma chars_join (cs : list ascii) : chars (join cs) = cs.
Proof. induction cs as [|c cs IH]; simpl; [done|]. by rewrite IH. Qed.

(** C9: for a length that is not negative, make_password returns (it raises
    nothing) a string of exactly that many characters, each an ASCII letter
    or a decimal digit, and leaves ENV alone; without an argument the length
    is 16. *)
Theorem make_password_alphanumeric (n : Z) (w : World) :
  0 ≤ n →
  (∃ password w',
      make_password (Some n) w = (Return password, w')
      ∧ len (chars password) = n
      ∧ Forall (λ c, alphanumeric c = true) (chars password)
      ∧ ENV w' = ENV w)
  ∧ make_password None w = make_password (Some 16) w.
Proof.
intros Hn. split; [|reflexivity].
unfold make_password. cbv zeta. change (default 16 (Some n)) with n.
destruct (mapM_choice_run (chars (ascii_letters +:+ digits)) (range n) w)
  as (cs & Hlen & Hcs & Hrun); [done|].
eexists (join cs), _. rewrite bind_run, Hrun. split_and!; [reflexivity|..|done].
- rewrite chars_join. unfold len, range in *. rewrite Hlen, length_seqZ. lia.
- rewrite chars_join. eapply Forall_impl; [exact Hcs|].
  intros c Hc. simpl in Hc.
  repeat (apply elem_of_cons in Hc as [->|Hc]; [reflexivity|]).
  by apply elem_of_nil in Hc.
Qed.

Lemma make_password_alphanumeric_witness :
  ∃ password w',
    make_password (Some 3) initial_world = (Return password, w')
    ∧ len (chars password) = 3
    ∧ Forall (λ c, alphanumeric c = true) (chars password)
    ∧ ENV w' = ENV initial_world.
Proof.
exact (proj1 (make_password_alphanumeric 3 initial_world ltac:(lia))).
Defined.

(** ** Temporary settings *)

Lemma settings_enter_run (kwargs : list (string * value)) (w : World) :
  settings_enter kwargs w =
    (Return (),
     mkWorld (foldl (λ env kv, <[kv.1 := kv.2]> env) (ENV w) kwargs)
             (entropy w) (drawn w)).
Proof.
unfold settings_enter. revert w.
induction kwargs as [|[key v] kwargs IH]; intros w; [by destruct w|].
cbn [for_in]. rewrite bind_run. unfold ENV_setitem at 1. by rewrite IH.
Qed.

Lemma lookup_foldl_delete (keys : list string) (env : gmap string value) key :
  foldl (λ env key, delete key env) env keys !! key =
    if decide (key ∈ keys) then None else env !! key.
Proof.
revert env. induction keys as [|k keys IH]; intros env; cbn [foldl].
- by rewrite decide_False by set_solver.
- rewrite IH. destruct (decide (key = k)) as [->|Hne].
  + rewrite lookup_delete_eq. rewrite (decide_True (P := k ∈ k :: keys)) by set_solver.
    by case_decide.
  + rewrite lookup_delete_ne by done.
    destruct (decide (key ∈ keys)).
    * by rewrite decide_True by (by constructor).
    * rewrite decide_False; [done|]. by intros [?|?]%elem_of_cons.
Qed.

Lemma delete_keys_run (keys : list string) (w : World) :
  NoDup keys →
  (∀ key, key ∈ keys → is_Some (ENV w !! key)) →
  for_in keys (λ key _, ENV_delitem key) () w =
    (Return (),
     mkWorld (foldl (λ env key, delete key env) (ENV w) keys)
             (entropy w) (drawn w)).
Proof.
intros Hdup. revert w. induction Hdup as [|k keys Hk _ IH]; intros w Hin.
- by destruct w.
- cbn [for_in]. rewrite bind_run. unfold ENV_delitem at 1.
  destruct (Hin k) as [v Hv]; [set_solver|]. rewrite Hv.
  rewrite IH; [done|]. intros key Hkey. simpl.
  rewrite lookup_delete_ne by set_solver. apply Hin. set_solver.
Qed.

(** C10: when the body of [with settings(...)] ends normally and has left
    the given keys in ENV, the statement ends normally and afterwards none
    of the given keys is in ENV, whatever ENV held for them before entry;
    every other key keeps what the body left, and nothing is restored. *)
Theorem settings_removes_its_keys {A} (kwargs : list (string * value))
    (body : M A) (a : A) (w w1 : World) :
  NoDup (kwargs.*1) →
  body (settings_enter kwargs w).2 = (Return a, w1) →
  (∀ key, key ∈ kwargs.*1 → is_Some (ENV w1 !! key)) →
  ∃ w2, settings kwargs body w = (Return a, w2)
    ∧ (∀ key, key ∈ kwargs.*1 → ENV w2 !! key = None)
    ∧ (∀ key, key ∉ kwargs.*1 → ENV w2 !! key = ENV w1 !! key)
    ∧ entropy w2 = entropy w1 ∧ drawn w2 = drawn w1.
Proof.
intros Hdup Hbody Hkeys. unfold settings.
rewrite bind_run. rewrite settings_enter_run in *. cbn [snd] in Hbody.
rewrite bind_run, Hbody. rewrite bind_run. unfold settings_exit.
rewrite delete_keys_run by done.
eexists. split_and!; [reflexivity|..|done|done].
- intros key Hkey. cbn [ENV]. rewrite lookup_foldl_delete. by rewrite decide_True.
- intros key Hkey. cbn [ENV]. rewrite lookup_foldl_delete. by rewrite decide_False.
Qed.

Lemma settings_removes_its_keys_witness :
  ∃ w2,
    settings [("debug"%string, VBool false)] (mret ())
      (mkWorld {["debug"%string := VBool true]} (λ n, n) 0%nat) = (Return (), w2)
    ∧ (∀ key, key ∈ ["debug"%string] → ENV w2 !! key = None)
    ∧ (∀ key, key ∉ ["debug"%string] →
         ENV w2 !! key =
           ENV (mkWorld {["debug"%string := VBool false]} (λ n, n) 0%nat) !! key)
    ∧ entropy w2 = (λ n, n) ∧ drawn w2 = 0%nat.
Proof.
refine (settings_removes_its_keys [("debug"%string, VBool false)] (mret ()) ()
  (mkWorld {["debug"%string := VBool true]} (λ n, n) 0%nat)
  (mkWorld {["debug"%string := VBool false]} (λ n, n) 0%nat) _ _ _).
- apply NoDup_singleton.
- reflexivity.
- intros key ->%list_elem_of_singleton. by eexists.
Defined.

(** * Further properties *)

(** ** The version encoder, in terms of a version's components *)

Lemma components_Some (version : string) (abc : list Z) :
  components version = Some abc ↔
  ∃ ns, Forall2 (λ p n, int_literal p = Some n) (split "." version) ns
        ∧ (length ns ≤ 3)%nat ∧ abc = ns ++ replicate (3 - length ns) 0.
Proof.
unfold components. split.
- destruct (mapM int_literal (split "." version)) as [ns|] eqn:Hns; [|done].
  simpl. case_decide; [|done]. intros [= <-]. exists ns.
  by apply mapM_Some in Hns.
- intros (ns & Hns & Hlen & ->). apply mapM_Some in Hns. rewrite Hns. simpl.
  by rewrite decide_True.
Qed.

Lemma components_three (version : string) (abc : list Z) :
  components version = Some abc → ∃ a b c, abc = [a; b; c].
Proof.
intros (ns & _ & Hlen & ->)%components_Some.
destruct (padded_three ns Hlen) as (a & b & c & ->). eauto.
Qed.

Lemma convert_run_components (version : string) (a b c : Z) (w : World) :
  components version = Some [a; b; c] →
  convert_version_to_int version w =
    (if c >=? 65536 then Raise (ValueError (cannot_store c 16 16))
     else if b >=? 256 then Raise (ValueError (cannot_store b 8 8))
     else if a >=? 256 then Raise (ValueError (cannot_store a 8 8))
     else Return (a * 2 ^ 24 + b * 2 ^ 16 + c), w).
Proof.
intros (ns & Hns & Hlen & Hpad)%components_Some.
by apply (convert_run_ok version ns).
Qed.

Lemma convert_returns_components (version : string) (n : Z) (w w' : World) :
  convert_version_to_int version w = (Return n, w') →
  ∃ a b c, components version = Some [a; b; c]
    ∧ a < 256 ∧ b < 256 ∧ c < 65536 ∧ n = a * 2 ^ 24 + b * 2 ^ 16 + c.
Proof.
intros Hrun.
destruct (pieces_cases (split "." version))
  as [[ns Hns]|(good & bad & rest & Hsplit & Hgood & Hbad)].
- destruct (decide (3 < length ns)%nat) as [Hlen|Hlen].
  { by rewrite (convert_run_many version ns) in Hrun by done. }
  destruct (padded_three ns) as (a & b & c & Hpad); [lia|].
  assert (components version = Some [a; b; c]) as Hc.
  { apply components_Some. exists ns. split_and!; [done|lia|done]. }
  rewrite (convert_run_components version a b c) in Hrun by done.
  exists a, b, c. split; [done|].
  destruct (Z_lt_le_dec c 65536); [rewrite (geb_false c) in Hrun by done|
    by rewrite (geb_true c) in Hrun by done].
  destruct (Z_lt_le_dec b 256); [rewrite (geb_false b) in Hrun by done|
    by rewrite (geb_true b) in Hrun by done].
  destruct (Z_lt_le_dec a 256); [rewrite (geb_false a) in Hrun by done|
    by rewrite (geb_true a) in Hrun by done].
  by simplify_eq.
- by rewrite (convert_run_bad version good bad rest) in Hrun by done.
Qed.

(** X1: the call returns exactly on the versions of at most three readable
    pieces whose components are below 2^8, 2^8 and 2^16; what it returns is
    then a*2^24 + b*2^16 + c for the components a, b, c (missing ones being
    0), and the state is as before. *)
Theorem convert_version_to_int_returns_iff (version : string) (n : Z) (w w' : World) :
  convert_version_to_int version w = (Return n, w') ↔
  w' = w ∧ ∃ a b c, components version = Some [a; b; c]
    ∧ a < 256 ∧ b < 256 ∧ c < 65536 ∧ n = a * 2 ^ 24 + b * 2 ^ 16 + c.
Proof.
split.
- intros Hrun. split; [|by eapply convert_returns_components].
  destruct (convert_returns_components _ _ _ _ Hrun) as (a & b & c & Hc & _).
  rewrite (convert_run_components version a b c) in Hrun by done. congruence.
- intros (-> & a & b & c & Hc & Ha & Hb & Hcc & ->).
  rewrite (convert_run_components version a b c) by done.
  by rewrite !geb_false by lia.
Qed.

(** X2: when every piece of the version is a non-negative integer, what the
    call returns lies in [0, 2^32). *)
Theorem encoded_version_fits_32_bits (version : string) (n : Z) (w w' : World) :
  Forall (λ p, valid_non_negative_integer p = true) (split "." version) →
  convert_version_to_int version w = (Return n, w') →
  0 ≤ n < 2 ^ 32.
Proof.
intros Hpos (a & b & c & Hc & Ha & Hb & Hcc & ->)%convert_returns_components.
apply components_Some in Hc as (ns & Hns & Hlen & Hpad).
assert (Forall (λ n, 0 ≤ n) ns) as Hnn.
{ clear -Hns Hpos. induction Hns as [|p n ps ns Hp _ IH]; [done|].
  apply Forall_cons in Hpos as [Hp0 Hps]. constructor; [|by apply IH].
  unfold valid_non_negative_integer in Hp0. rewrite Hp in Hp0. by apply Z.leb_le. }
assert (Forall (λ n, 0 ≤ n) [a; b; c]) as H3.
{ rewrite Hpad. apply Forall_app. split; [done|]. by apply Forall_replicate. }
inversion H3 as [|? ? ? Hbc]; inversion Hbc as [|? ? ? Hc']; inversion Hc'.
simplify_eq. lia.
Qed.

Lemma encoded_version_fits_32_bits_witness : 0 ≤ 4294967295 < 2 ^ 32.
Proof.
refine (encoded_version_fits_32_bits "255.255.65535" 4294967295
  initial_world initial_world _ _).
- repeat constructor.
- reflexivity.
Defined.

(** X3: among versions whose components are in range and not negative, the
    encoding keeps the order: one version is encoded below another exactly
    when it is lower component by component (first component first), and
    two versions are encoded alike exactly when their components are the
    same. *)
Theorem encoding_keeps_version_order
    (v v' : string) (cs cs' : list Z) (n n' : Z) (w : World) :
  components v = Some cs → components v' = Some cs' →
  Forall (λ c, 0 ≤ c) cs → Forall (λ c, 0 ≤ c) cs' →
  convert_version_to_int v w = (Return n, w) →
  convert_version_to_int v' w = (Return n', w) →
  (n < n' ↔ version_lt cs cs') ∧ (n = n' ↔ cs = cs').
Proof.
intros Hc Hc' Hpos Hpos'
  (a & b & c & Hc2 & Ha & Hb & Hcc & ->)%convert_returns_components
  (a' & b' & c' & Hc2' & Ha' & Hb' & Hcc' & ->)%convert_returns_components.
simplify_eq.
inversion Hpos as [|? ? ? Hbc]; inversion Hbc as [|? ? ? Hc0]; inversion Hc0.
inversion Hpos' as [|? ? ? Hbc']; inversion Hbc' as [|? ? ? Hc0']; inversion Hc0'.
simplify_eq. unfold version_lt. split; split.
- intros Hlt. destruct (Z.lt_trichotomy a a') as [?|[->|?]]; [by left| |lia].
  right. split; [done|].
  destruct (Z.lt_trichotomy b b') as [?|[->|?]]; [by left| |lia].
  right. split; [done|lia].
- intros [?|[-> [?|[-> ?]]]]; lia.
- intros Heq. assert (a = a') as -> by lia. assert (b = b') as -> by lia.
  do 2 f_equal. f_equal. lia.
- by intros [= -> -> ->].
Qed.

Lemma encoding_keeps_version_order_witness :
  (34209792 < 34275328 ↔ version_lt [2; 10; 0] [2; 11; 0])
  ∧ (34209792 = 34275328 ↔ [2; 10; 0] = [2; 11; 0]).
Proof.
refine (encoding_keeps_version_order "2.10" "2.11.0" [2; 10; 0] [2; 11; 0]
  34209792 34275328 initial_world _ _ _ _ _ _); try reflexivity.
- repeat constructor; lia.
- repeat constructor; lia.
Defined.

(** X4: the range check runs from the last component to the first, so the
    error names the last component that is too large for its slot, whatever
    the components before it are. *)
Theorem range_error_names_last_offender
    (version : string) (cs : list Z) (i : nat) (n bits : Z) (w : World) :
  components version = Some cs →
  cs !! i = Some n → [8; 8; 16] !! i = Some bits → 2 ^ bits ≤ n →
  (∀ (j : nat) m bj, (i < j)%nat →
     cs !! j = Some m → [8; 8; 16] !! j = Some bj → m < 2 ^ bj) →
  convert_version_to_int version w =
    (Raise (ValueError (cannot_store n bits bits)), w).
Proof.
intros Hc Hn Hbits Hbig Hlater.
destruct (components_three _ _ Hc) as (a & b & c & ->).
rewrite (convert_run_components version a b c) by done.
destruct i as [|[|[|i]]]; simplify_eq/=.
- rewrite (geb_false c), (geb_false b), (geb_true n) by
    first [lia | by apply (Hlater 2%nat c 16); [lia|done..]
               | by apply (Hlater 1%nat b 8); [lia|done..]].
  done.
- rewrite (geb_false c), (geb_true n) by
    first [lia | by apply (Hlater 2%nat c 16); [lia|done..]].
  done.
- by rewrite (geb_true n) by lia.
Qed.

Lemma range_error_names_last_offender_witness :
  convert_version_to_int "300.400.5" initial_world =
    (Raise (ValueError (cannot_store 400 8 8)), initial_world).
Proof.
refine (range_error_names_last_offender "300.400.5" [300; 400; 5] 1 400 8
  initial_world _ _ _ _ _); try reflexivity.
- simpl. lia.
- intros [|[|[|j]]] m bj Hj Hm Hb; simplify_eq/=; lia.
Defined.

(** ** Passwords and the entropy source *)

Lemma mapM_choice_spec {A B} (seq : list A) (l : list B) (w : World) :
  seq ≠ [] →
  ∃ xs, mapM (λ _, choice seq) l w =
          (Return xs, mkWorld (ENV w) (entropy w) (drawn w + length l))
    ∧ length xs = length l
    ∧ ∀ (i : nat) x, xs !! i = Some x →
        seq !! (entropy w (drawn w + i) `mod` length seq)%nat = Some x.
Proof.
intros Hne. revert w. induction l as [|y l IH]; intros w.
- exists []. split_and!; [|done|done]. cbn. unfold mret, M_ret.
  destruct w; simpl. by rewrite Nat.add_0_r.
- destruct (lookup_lt_is_Some_2 seq (entropy w (drawn w) `mod` length seq)%nat)
    as [x Hx].
  { apply Nat.mod_upper_bound. by destruct seq. }
  destruct (IH (mkWorld (ENV w) (entropy w) (S (drawn w))))
    as (xs & Hrun & Hlen & Hxs).
  exists (x :: xs). split_and!.
  + cbn. rewrite bind_run. unfold choice at 1. rewrite Hx.
    rewrite bind_run, Hrun. cbn. unfold mret, M_ret. do 2 f_equal. lia.
  + simpl. by rewrite Hlen.
  + intros [|i] x' Hi; simpl in Hi.
    * simplify_eq. by rewrite Nat.add_0_r.
    * apply Hxs in Hi. simpl in Hi.
      by replace (drawn w + S i)%nat with (S (drawn w) + i)%nat by lia.
Qed.

Lemma make_password_run (n : Z) (w : World) :
  ∃ password,
    make_password (Some n) w =
      (Return password,
       mkWorld (ENV w) (entropy w) (drawn w + Z.to_nat n))
    ∧ length (chars password) = Z.to_nat n
    ∧ ∀ (i : nat) c, chars password !! i = Some c →
        alphabet !! (entropy w (drawn w + i) `mod` 62)%nat = Some c.
Proof.
unfold make_password. cbv zeta. change (default 16 (Some n)) with n.
destruct (mapM_choice_spec alphabet (range n) w) as (cs & Hrun & Hlen & Hcs);
  [done|].
unfold range in *. rewrite length_seqZ in *.
exists (join cs). rewrite chars_join. split_and!; [|done|done].
fold alphabet. by rewrite bind_run, Hrun.
Qed.

(** X6: a length that is zero or negative gives the empty password and
    draws nothing: the state is the one before the call. *)
Theorem make_password_without_characters (n : Z) (w : World) :
  n ≤ 0 → make_password (Some n) w = (Return EmptyString, w).
Proof.
intros Hn. destruct (make_password_run n w) as (password & Hrun & Hlen & _).
rewrite Hrun. replace (Z.to_nat n) with 0%nat in * by lia.
destruct password; [|done]. destruct w; simpl. by rewrite Nat.add_0_r.
Qed.

Lemma make_password_without_characters_witness :
  make_password (Some (-3)) initial_world = (Return EmptyString, initial_world).
Proof. exact (make_password_without_characters (-3) initial_world ltac:(lia)). Defined.

Lemma alphanumeric_in_alphabet (c : ascii) :
  alphanumeric c = true → c ∈ alphabet.
Proof.
destruct c as [[] [] [] [] [] [] [] []]; intros H; try discriminate H; clear H;
  unfold alphabet; cbn;
  repeat first [apply list_elem_of_here | apply list_elem_of_further].
Qed.

Lemma draws_for (cs : list ascii) :
  Forall (λ c, c ∈ alphabet) cs →
  ∀ d : nat, ∃ e : nat → nat,
    ∀ (i : nat) c, cs !! i = Some c →
      alphabet !! (e (d + i)%nat `mod` 62)%nat = Some c.
Proof.
induction 1 as [|c cs Hc _ IH]; intros d.
- exists (λ _, 0%nat). by intros i c [=].
- apply list_elem_of_lookup_1 in Hc as [k Hk].
  assert (k < 62)%nat as Hlt by (by apply lookup_lt_Some in Hk).
  destruct (IH (S d)) as [e He].
  exists (λ j, if decide (j = d) then k else e j).
  intros [|i] c' Hi; simpl in Hi.
  + simplify_eq. rewrite decide_True by lia. by rewrite Nat.mod_small.
  + rewrite decide_False by lia.
    replace (d + S i)%nat with (S d + i)%nat by lia. by apply He.
Qed.

(** X7: every string of ASCII letters and digits can come out: for each
    such string there is an entropy source under which make_password, asked
    for its length, returns exactly that string. *)
Theorem every_alphanumeric_password_is_possible
    (s : string) (env : gmap string value) (d : nat) :
  Forall (λ c, alphanumeric c = true) (chars s) →
  ∃ e : nat → nat,
    make_password (Some (len (chars s))) (mkWorld env e d) =
      (Return s, mkWorld env e (d + length (chars s))).
Proof.
intros Hs.
destruct (draws_for (chars s)) with (d := d) as [e He].
{ eapply Forall_impl; [exact Hs|]. apply alphanumeric_in_alphabet. }
exists e.
destruct (make_password_run (len (chars s)) (mkWorld env e d))
  as (password & Hrun & Hlen & Hchars).
unfold len in *. rewrite Nat2Z.id in *. cbn [ENV entropy drawn] in *.
rewrite Hrun. do 2 f_equal.
rewrite <-(string_of_list_ascii_of_string password),
        <-(string_of_list_ascii_of_string s). f_equal.
apply list_eq_same_length with (length (chars s)); [done..|].
intros i c c' Hi Hc Hc'. apply Hchars in Hc. apply He in Hc'. congruence.
Qed.

Lemma every_alphanumeric_password_is_possible_witness :
  ∃ e : nat → nat,
    make_password (Some 4) (mkWorld ∅ e 0) = (Return "aZ09"%string, mkWorld ∅ e 4).
Proof.
refine (every_alphanumeric_password_is_possible "aZ09" ∅ 0 _).
repeat constructor.
Defined.

(** ** Temporary settings: entry, exceptions, missing keys, nesting *)

Lemma settings_enter_returns (kwargs : list (string * value)) (w : World) :
  settings_enter kwargs w = (Return (), (settings_enter kwargs w).2).
Proof. by rewrite settings_enter_run. Qed.

Lemma settings_run {A} (kwargs : list (string * value)) (body : M A) (w : World) :
  settings kwargs body w =
    match body (settings_enter kwargs w).2 with
    | (Return a, w1) =>
        match settings_exit kwargs w1 with
        | (Return _, w2) => (Return a, w2)
        | (Raise e, w2) => (Raise e, w2)
        end
    | (Raise e, w1) => (Raise e, w1)
    end.
Proof.
unfold settings. rewrite bind_run, settings_enter_returns, bind_run.
destruct (body _) as [[a|e] w1]; [|done].
rewrite bind_run. by destruct (settings_exit kwargs w1) as [[[]|e] w2].
Qed.

Lemma lookup_foldl_insert (kwargs : list (string * value))
    (env : gmap string value) :
  NoDup (kwargs.*1) →
  (∀ key v, (key, v) ∈ kwargs →
     foldl (λ env kv, <[kv.1 := kv.2]> env) env kwargs !! key = Some v)
  ∧ (∀ key, key ∉ kwargs.*1 →
     foldl (λ env kv, <[kv.1 := kv.2]> env) env kwargs !! key = env !! key).
Proof.
revert env. induction kwargs as [|[k v] kwargs IH]; intros env Hdup.
{ split; [by intros ?? ?%elem_of_nil|done]. }
apply NoDup_cons in Hdup as [Hk Hdup]. cbn [foldl fst snd].
destruct (IH (<[k := v]> env) Hdup) as [IHin IHout]. split.
- intros key v' [[= -> ->]|Hin]%elem_of_cons; [|by apply IHin].
  rewrite IHout by done. apply lookup_insert_eq.
- intros key Hkey. cbn in Hkey. apply not_elem_of_cons in Hkey as [Hne Hkey].
  rewrite IHout by done. by rewrite lookup_insert_ne.
Qed.

Lemma delete_keys_missing (keys : list string) (w : World) (key : string) :
  NoDup keys → key ∈ keys → ENV w !! key = None →
  ∃ key' w2,
    for_in keys (λ key _, ENV_delitem key) () w = (Raise (KeyError key'), w2)
    ∧ key' ∈ keys ∧ ENV w !! key' = None.
Proof.
intros Hdup. revert w. induction Hdup as [|k keys Hk _ IH]; intros w Hin Hnone.
{ by apply elem_of_nil in Hin. }
cbn [for_in]. rewrite bind_run. unfold ENV_delitem at 1.
destruct (ENV w !! k) as [v|] eqn:Hv.
- apply elem_of_cons in Hin as [->|Hin]; [congruence|].
  destruct (IH (mkWorld (delete k (ENV w)) (entropy w) (drawn w)) Hin)
    as (key' & w2 & Hrun & Hkey' & Hnone').
  { cbn. rewrite lookup_delete_ne; [done|]. by intros ->. }
  exists key', w2. split_and!; [done|by constructor|].
  cbn in Hnone'. rewrite lookup_delete_ne in Hnone'; [done|]. by intros ->.
- exists k, w. split_and!; [done|by constructor|done].
Qed.

(** X8: on entry every given key is bound in ENV to the value given for it,
    replacing what was there, and every other key keeps its binding; entry
    raises nothing. *)
Theorem settings_enter_overrides (kwargs : list (string * value)) (w : World) :
  NoDup (kwargs.*1) →
  ∃ w_in, settings_enter kwargs w = (Return (), w_in)
    ∧ (∀ key v, (key, v) ∈ kwargs → ENV w_in !! key = Some v)
    ∧ (∀ key, key ∉ kwargs.*1 → ENV w_in !! key = ENV w !! key)
    ∧ entropy w_in = entropy w ∧ drawn w_in = drawn w.
Proof.
intros Hdup. eexists. rewrite settings_enter_run. split; [done|].
destruct (lookup_foldl_insert kwargs (ENV w) Hdup) as [Hin Hout]. by cbn.
Qed.

Lemma settings_enter_overrides_witness :
  ∃ w_in,
    settings_enter [("debug"%string, VBool false); ("sudo_user"%string, VStr "vmail")]
      (mkWorld {["debug"%string := VBool true]} (λ n, n) 0%nat) = (Return (), w_in)
    ∧ (∀ key v,
         (key, v) ∈ [("debug"%string, VBool false); ("sudo_user"%string, VStr "vmail")] →
         ENV w_in !! key = Some v)
    ∧ (∀ key, key ∉ ["debug"%string; "sudo_user"%string] →
         ENV w_in !! key = ({["debug"%string := VBool true]} : gmap string value) !! key)
    ∧ entropy w_in = (λ n, n) ∧ drawn w_in = 0%nat.
Proof.
refine (settings_enter_overrides
  [("debug"%string, VBool false); ("sudo_user"%string, VStr "vmail")]
  (mkWorld {["debug"%string := VBool true]} (λ n, n) 0%nat) _).
cbn. apply NoDup_cons. split; [|apply NoDup_singleton].
by intros ?%list_elem_of_singleton.
Defined.

(** X9: an exception raised in the body leaves the overrides in place: the
    with-statement raises the same exception and nothing is deleted, so
    when the body has not touched ENV every given key is still bound to its
    override. *)
Theorem settings_keeps_overrides_on_exception {A}
    (kwargs : list (string * value)) (body : M A) (e : exception) (w w1 : World) :
  NoDup (kwargs.*1) →
  body (settings_enter kwargs w).2 = (Raise e, w1) →
  ENV w1 = ENV (settings_enter kwargs w).2 →
  settings kwargs body w = (Raise e, w1)
  ∧ ∀ key v, (key, v) ∈ kwargs → ENV w1 !! key = Some v.
Proof.
intros Hdup Hbody Henv. rewrite settings_run, Hbody. split; [done|].
rewrite Henv, settings_enter_run. cbn.
by destruct (lookup_foldl_insert kwargs (ENV w) Hdup).
Qed.

Lemma settings_keeps_overrides_on_exception_witness :
  settings [("debug"%string, VBool true)] (int "x") initial_world =
    (Raise (ValueError (invalid_literal "x")),
     mkWorld {["debug"%string := VBool true]} (λ n, n) 0%nat)
  ∧ ∀ key v, (key, v) ∈ [("debug"%string, VBool true)] →
      ENV (mkWorld {["debug"%string := VBool true]} (λ n, n) 0%nat) !! key = Some v.
Proof.
refine (settings_keeps_overrides_on_exception [("debug"%string, VBool true)]
  (int "x") _ initial_world _ _ _ _); [apply NoDup_singleton|reflexivity..].
Defined.

(** X10: when the body ends normally but has removed one of the given keys
    from ENV, leaving the with-statement raises KeyError for a given key
    that is missing, and the value of the body is lost. *)
Theorem settings_exit_raises_on_missing_key {A}
    (kwargs : list (string * value)) (body : M A) (a : A) (key : string)
    (w w1 : World) :
  NoDup (kwargs.*1) →
  body (settings_enter kwargs w).2 = (Return a, w1) →
  key ∈ kwargs.*1 → ENV w1 !! key = None →
  ∃ key' w2, settings kwargs body w = (Raise (KeyError key'), w2)
    ∧ key' ∈ kwargs.*1 ∧ ENV w1 !! key' = None.
Proof.
intros Hdup Hbody Hkey Hnone. rewrite settings_run, Hbody.
destruct (delete_keys_missing (kwargs.*1) w1 key Hdup Hkey Hnone)
  as (key' & w2 & Hrun & Hkey' & Hnone').
exists key', w2. unfold settings_exit. by rewrite Hrun.
Qed.

Lemma settings_exit_raises_on_missing_key_witness :
  ∃ key' w2,
    settings [("debug"%string, VBool true)] (ENV_delitem "debug") initial_world =
      (Raise (KeyError key'), w2)
    ∧ key' ∈ ["debug"%string] ∧ ENV initial_world !! key' = None.
Proof.
refine (settings_exit_raises_on_missing_key [("debug"%string, VBool true)]
  (ENV_delitem "debug") () "debug" initial_world initial_world _ _ _ _).
- apply NoDup_singleton.
- reflexivity.
- by apply list_elem_of_singleton.
- reflexivity.
Defined.

Lemma settings_exit_run (kwargs : list (string * value)) (w : World) :
  NoDup (kwargs.*1) →
  (∀ key, key ∈ kwargs.*1 → is_Some (ENV w !! key)) →
  settings_exit kwargs w =
    (Return (),
     mkWorld (foldl (λ env key, delete key env) (ENV w) (kwargs.*1))
             (entropy w) (drawn w)).
Proof. intros. by apply delete_keys_run. Qed.

(** X11: two nested with-statements that share a key do not work: when the
    inner one ends normally it has deleted the shared key, and leaving the
    outer one raises KeyError. *)
Theorem nested_settings_sharing_a_key_raise {A}
    (outer inner : list (string * value)) (body : M A) (a : A) (key : string)
    (w w1 : World) :
  NoDup (outer.*1) → NoDup (inner.*1) →
  key ∈ outer.*1 → key ∈ inner.*1 →
  body (settings_enter inner (settings_enter outer w).2).2 = (Return a, w1) →
  (∀ k, k ∈ inner.*1 → is_Some (ENV w1 !! k)) →
  ∃ key' w2,
    settings outer (settings inner body) w = (Raise (KeyError key'), w2)
    ∧ key' ∈ outer.*1.
Proof.
intros Hout Hinn Hko Hki Hbody Hkeys.
rewrite settings_run, settings_run, Hbody, settings_exit_run by done.
set (w_c := mkWorld _ _ _).
destruct (delete_keys_missing (outer.*1) w_c key Hout Hko)
  as (key' & w2 & Hrun & Hkey' & _).
{ unfold w_c. cbn. rewrite lookup_foldl_delete. by rewrite decide_True. }
exists key', w2. unfold settings_exit. by rewrite Hrun.
Qed.

Lemma nested_settings_sharing_a_key_raise_witness :
  ∃ key' w2,
    settings [("debug"%string, VBool true)]
      (settings [("debug"%string, VBool false)] (mret ())) initial_world =
      (Raise (KeyError key'), w2)
    ∧ key' ∈ ["debug"%string].
Proof.
refine (nested_settings_sharing_a_key_raise [("debug"%string, VBool true)]
  [("debug"%string, VBool false)] (mret ()) () "debug" initial_world
  (mkWorld {["debug"%string := VBool false]} (λ n, n) 0%nat) _ _ _ _ _ _).
- apply NoDup_singleton.
- apply NoDup_singleton.
- by apply list_elem_of_singleton.
- by apply list_elem_of_singleton.
- reflexivity.
- intros k ->%list_elem_of_singleton. by eexists.
Defined.

(** X12: for keys that ENV did not hold before, the settings are temporary
    indeed: when the body ends normally and has left ENV as it found it,
    ENV after the with-statement is ENV before it. *)
Theorem settings_restores_env_for_fresh_keys {A}
    (kwargs : list (string * value)) (body : M A) (a : A) (w w1 : World) :
  NoDup (kwargs.*1) →
  (∀ key, key ∈ kwargs.*1 → ENV w !! key = None) →
  body (settings_enter kwargs w).2 = (Return a, w1) →
  ENV w1 = ENV (settings_enter kwargs w).2 →
  ∃ w2, settings kwargs body w = (Return a, w2) ∧ ENV w2 = ENV w.
Proof.
intros Hdup Hfresh Hbody Henv.
destruct (lookup_foldl_insert kwargs (ENV w) Hdup) as [Hin Hout].
rewrite settings_enter_run in Henv. cbn in Henv.
rewrite settings_run, Hbody, settings_exit_run; [|done|].
- eexists. split; [done|]. cbn. apply map_eq. intros key.
  rewrite lookup_foldl_delete. case_decide as Hkey.
  + by rewrite Hfresh.
  + by rewrite Henv, Hout.
- intros key [[k v] [-> Hkv]]%list_elem_of_fmap. rewrite Henv. eauto.
Qed.

Lemma settings_restores_env_for_fresh_keys_witness :
  ∃ w2,
    settings [("sudo_user"%string, VStr "vmail")] (mret ())
      (mkWorld {["debug"%string := VBool true]} (λ n, n) 0%nat) = (Return (), w2)
    ∧ ENV w2 = {["debug"%string := VBool true]}.
Proof.
refine (settings_restores_env_for_fresh_keys [("sudo_user"%string, VStr "vmail")]
  (mret ()) () (mkWorld {["debug"%string := VBool true]} (λ n, n) 0%nat)
  _ _ _ _ _).
- apply NoDup_singleton.
- intros key ->%list_elem_of_singleton. reflexivity.
- reflexivity.
- reflexivity.
Defined.

(** ** Running commands *)

Lemma outcome_communicate os call args :
  call_communicate call = Some args → outcome os call = os call.
Proof. unfold outcome. intros ->. by destruct (os call) as [[rc out]|e]. Qed.

Lemma outcome_wait os call :
  call_communicate call = None →
  outcome os call =
    match os call with
    | Return (returncode, _) => Return (returncode, VNone)
    | Raise e => Raise e
    end.
Proof. unfold outcome. by intros ->. Qed.

Lemma exec_cmd_run os cmd su pin login (kwargs : gmap string value) w :
  let sudo_user := default su (ENV w !! "sudo_user"%string) in
  let capture :=
    match kwargs !! "capture_output"%string with
    | Some v => truth v
    | None => negb (truth (default VNone (ENV w !! "debug"%string)))
    end in
  let with_shell :=
    <["shell"%string := default (VBool true) (kwargs !! "shell"%string)]> kwargs in
  let with_stdin :=
    match pin with VNone => with_shell | _ => <["stdin"%string := PIPE]> with_shell end in
  let passed := delete "capture_output"%string with_stdin in
  exec_cmd os cmd su pin login kwargs w =
    (outcome os
       (mkCall
          match sudo_user with
          | VNone => cmd
          | _ => "sudo " +:+ (if login then "-i " else "") +:+ "-u "
                   +:+ str sudo_user +:+ " " +:+ cmd
          end
          (if capture
           then <["stderr"%string := PIPE]> (<["stdout"%string := PIPE]> passed)
           else passed)
          (if truth pin || capture
           then Some match pin with VNone => [] | _ => [pin] end
           else None)), w).
Proof.
intros sudo_user capture with_shell with_stdin passed.
unfold exec_cmd, ENV_get, run_process. rewrite bind_run. fold sudo_user.
assert (match kwargs !! "shell"%string with
        | Some _ => kwargs
        | None => <["shell"%string := VBool true]> kwargs
        end = with_shell) as ->.
{ unfold with_shell. destruct (kwargs !! "shell"%string) eqn:Hs; [|done].
  by rewrite insert_id. }
fold with_stdin.
assert (with_stdin !! "capture_output"%string = kwargs !! "capture_output"%string) as Hlook.
{ unfold with_stdin, with_shell. destruct pin; by simplify_map_eq. }
rewrite bind_run, Hlook.
destruct (kwargs !! "capture_output"%string) as [v|] eqn:Hcap.
- cbn -[truth outcome]. fold passed. subst capture. cbv beta.
  destruct (truth v); destruct (truth pin); reflexivity.
- rewrite bind_run. cbn -[truth outcome].
  assert (passed = with_stdin) as Hp.
  { unfold passed. apply delete_id. by rewrite Hlook. }
  rewrite <-Hp.
  subst capture. cbv beta.
  destruct (truth (default VNone (ENV w !! "debug"%string))); destruct (truth pin);
    reflexivity.
Qed.

Lemma exec_cmd_call_cmd (cmd : string) (su pin : value) (login : bool)
    (kwargs : gmap string value) (w : World) :
  ∃ call,
    (∀ os, exec_cmd os cmd su pin login kwargs w = (outcome os call, w))
    ∧ call_cmd call =
        match default su (ENV w !! "sudo_user"%string) with
        | VNone => cmd
        | user => "sudo " +:+ (if login then "-i " else "") +:+ "-u "
                    +:+ str user +:+ " " +:+ cmd
        end.
Proof.
eexists. split; [intros os; apply exec_cmd_run|].
cbn [call_cmd]. by destruct (default su (ENV w !! "sudo_user"%string)).
Qed.

(** X13: whatever the arguments and the state, exec_cmd makes one call of
    Popen, returns or raises as the operating system answers that call, and
    leaves the state alone; the option capture_output is never passed on
    to Popen, shell is passed as the caller gave it and as True otherwise,
    and stdin is a pipe whenever an input is given. *)
Theorem exec_cmd_popen_options (cmd : string) (sudo_user pinput : value)
    (login : bool) (kwargs : gmap string value) (w : World) :
  ∃ call,
    (∀ os, exec_cmd os cmd sudo_user pinput login kwargs w = (outcome os call, w))
    ∧ call_kwargs call !! "capture_output"%string = None
    ∧ call_kwargs call !! "shell"%string =
        Some (default (VBool true) (kwargs !! "shell"%string))
    ∧ call_kwargs call !! "stdin"%string =
        match pinput with
        | VNone => kwargs !! "stdin"%string
        | _ => Some PIPE
        end.
Proof.
eexists. split; [intros os; apply exec_cmd_run|].
cbn [call_kwargs]. split_and!.
- case_match; by simplify_map_eq.
- case_match; destruct pinput; by simplify_map_eq.
- case_match; destruct pinput; by simplify_map_eq.
Qed.

(** X14: an entry "sudo_user" of ENV decides the user, whatever the
    argument sudo_user is: with a value other than None there the command
    passed to Popen goes through sudo for that user (with -i exactly when
    login holds), and with None there it is the command as given, without
    sudo.  The call returns or raises as the operating system answers. *)
Theorem exec_cmd_env_sudo_user_wins (cmd : string) (user pinput : value)
    (login : bool) (kwargs : gmap string value) (w : World) :
  ENV w !! "sudo_user"%string = Some user →
  ∃ call,
    (∀ os sudo_user, exec_cmd os cmd sudo_user pinput login kwargs w =
                       (outcome os call, w))
    ∧ call_cmd call =
        match user with
        | VNone => cmd
        | _ => "sudo " +:+ (if login then "-i " else "") +:+ "-u "
                 +:+ str user +:+ " " +:+ cmd
        end.
Proof.
intros Huser. eexists. split.
- intros os sudo_user.
  pose proof (exec_cmd_run os cmd sudo_user pinput login kwargs w) as Hrun.
  cbv zeta in Hrun. rewrite Huser in Hrun. cbn [default from_option id] in Hrun.
  exact Hrun.
- reflexivity.
Qed.

Lemma exec_cmd_env_sudo_user_wins_witness :
  ∃ call,
    (∀ os sudo_user,
       exec_cmd os "doveadm reload" sudo_user VNone true ∅
         (mkWorld {["sudo_user"%string := VStr "vmail"]} (λ n, n) 0%nat) =
         (outcome os call,
          mkWorld {["sudo_user"%string := VStr "vmail"]} (λ n, n) 0%nat))
    ∧ call_cmd call = "sudo -i -u vmail doveadm reload"%string.
Proof.
exact (exec_cmd_env_sudo_user_wins "doveadm reload" (VStr "vmail") VNone true ∅
  (mkWorld {["sudo_user"%string := VStr "vmail"]} (λ n, n) 0%nat) eq_refl).
Defined.

(** X15: without the option capture_output and with no true "debug" in
    ENV, the output is captured: stdout and stderr are pipes, the process
    is communicated with (the input being passed when there is one), and
    exec_cmd gives what that gives: the return code with what was read from
    stdout, or the exception raised. *)
Theorem exec_cmd_captures_unless_debug (cmd : string) (sudo_user pinput : value)
    (login : bool) (kwargs : gmap string value) (w : World) :
  kwargs !! "capture_output"%string = None →
  truth (default VNone (ENV w !! "debug"%string)) = false →
  ∃ call,
    (∀ os, exec_cmd os cmd sudo_user pinput login kwargs w = (os call, w))
    ∧ call_kwargs call !! "stdout"%string = Some PIPE
    ∧ call_kwargs call !! "stderr"%string = Some PIPE
    ∧ call_communicate call =
        Some match pinput with VNone => [] | _ => [pinput] end.
Proof.
intros Hcap Hdebug. eexists. split.
- intros os. pose proof (exec_cmd_run os cmd sudo_user pinput login kwargs w) as Hrun.
  cbv zeta in Hrun. rewrite Hcap, Hdebug in Hrun. cbn [negb] in Hrun.
  rewrite orb_true_r in Hrun. rewrite Hrun. f_equal.
  by eapply outcome_communicate.
- cbn [call_kwargs call_communicate]. split_and!; [by simplify_map_eq..|done].
Qed.

Lemma exec_cmd_captures_unless_debug_witness :
  ∃ call,
    (∀ os, exec_cmd os "ls" VNone (VStr "y") true ∅ initial_world =
             (os call, initial_world))
    ∧ call_kwargs call !! "stdout"%string = Some PIPE
    ∧ call_kwargs call !! "stderr"%string = Some PIPE
    ∧ call_communicate call = Some [VStr "y"].
Proof.
exact (exec_cmd_captures_unless_debug "ls" VNone (VStr "y") true ∅ initial_world
  eq_refl eq_refl).
Defined.

(** X16: with a true "debug" in ENV and no option capture_output, an input
    that is None or empty is never sent: the process is only waited for,
    stdout is left as the caller set it, and when nothing is raised the
    output returned is None; yet for an empty input that is not None stdin
    is a pipe all the same. *)
Theorem exec_cmd_debug_waits (cmd : string) (sudo_user pinput debug : value)
    (login : bool) (kwargs : gmap string value) (w : World) :
  kwargs !! "capture_output"%string = None →
  ENV w !! "debug"%string = Some debug → truth debug = true →
  truth pinput = false →
  ∃ call,
    (∀ os, exec_cmd os cmd sudo_user pinput login kwargs w =
             (match os call with
              | Return (returncode, _) => Return (returncode, VNone)
              | Raise e => Raise e
              end, w))
    ∧ call_communicate call = None
    ∧ call_kwargs call !! "stdout"%string = kwargs !! "stdout"%string
    ∧ (pinput ≠ VNone → call_kwargs call !! "stdin"%string = Some PIPE).
Proof.
intros Hcap Hd Hdebug Hpin. eexists. split.
- intros os. pose proof (exec_cmd_run os cmd sudo_user pinput login kwargs w) as Hrun.
  cbv zeta in Hrun. rewrite Hcap, Hd in Hrun. cbn [default from_option id] in Hrun.
  rewrite Hdebug, Hpin in Hrun. cbn [negb orb] in Hrun. rewrite Hrun.
  by rewrite outcome_wait.
- cbn [call_kwargs call_communicate]. split_and!; [done| |].
  + destruct pinput; by simplify_map_eq.
  + intros Hne. destruct pinput; by simplify_map_eq.
Qed.

Lemma exec_cmd_debug_waits_witness :
  ∃ call,
    (∀ os, exec_cmd os "ls" VNone (VStr "") true ∅
             (mkWorld {["debug"%string := VBool true]} (λ n, n) 0%nat) =
             (match os call with
              | Return (returncode, _) => Return (returncode, VNone)
              | Raise e => Raise e
              end,
              mkWorld {["debug"%string := VBool true]} (λ n, n) 0%nat))
    ∧ call_communicate call = None
    ∧ call_kwargs call !! "stdout"%string = (∅ : gmap string value) !! "stdout"%string
    ∧ (VStr "" ≠ VNone → call_kwargs call !! "stdin"%string = Some PIPE).
Proof.
exact (exec_cmd_debug_waits "ls" VNone (VStr "") (VBool true) true ∅
  (mkWorld {["debug"%string := VBool true]} (λ n, n) 0%nat)
  eq_refl eq_refl eq_refl eq_refl).
Defined.

(** X17: inside [with settings(sudo_user=name)] the command is passed to
    Popen through sudo for that user, whatever exec_cmd's own argument
    sudo_user and whatever ENV held before.  When the call returns, the
    with-statement returns what it gave, ENV has no entry "sudo_user"
    afterwards and its other entries are as before; when the call raises,
    the with-statement raises the same exception and the entry "sudo_user"
    stays bound to name. *)
Theorem exec_cmd_under_settings_sudo_user (name cmd : string)
    (sudo_user pinput : value) (login : bool) (kwargs : gmap string value)
    (w : World) :
  ∃ call,
    call_cmd call =
      "sudo " +:+ (if login then "-i " else "") +:+ "-u " +:+ name
        +:+ " " +:+ cmd
    ∧ ∀ os, ∃ w2,
        settings [("sudo_user"%string, VStr name)]
          (exec_cmd os cmd sudo_user pinput login kwargs) w = (outcome os call, w2)
        ∧ ENV w2 !! "sudo_user"%string =
            match os call with
            | Return _ => None
            | Raise _ => Some (VStr name)
            end
        ∧ ∀ key, key ≠ "sudo_user"%string → ENV w2 !! key = ENV w !! key.
Proof.
set (w_in := mkWorld (<["sudo_user"%string := VStr name]> (ENV w))
                     (entropy w) (drawn w)).
destruct (exec_cmd_call_cmd cmd sudo_user pinput login kwargs w_in)
  as (call & Hexec & Hcmd).
exists call. split.
{ rewrite Hcmd. unfold w_in. cbn [ENV]. by rewrite lookup_insert_eq. }
intros os. rewrite settings_run, settings_enter_run. cbn [foldl fst snd].
fold w_in. rewrite Hexec. unfold outcome.
destruct (os call) as [[returncode output]|e].
- unfold settings_exit. cbn [fmap list_fmap fst for_in].
  rewrite bind_run. unfold ENV_delitem at 1. unfold w_in at 1. cbn [ENV].
  rewrite lookup_insert_eq. eexists. split_and!; [reflexivity|..].
  + cbn. apply lookup_delete_eq.
  + intros key Hkey. cbn. by rewrite lookup_delete_ne, lookup_insert_ne.
- exists w_in. split_and!; [reflexivity|..].
  + cbn. apply lookup_insert_eq.
  + intros key Hkey. cbn. by rewrite lookup_insert_ne.
Qed.

Lemma exec_cmd_under_settings_sudo_user_witness :
  ∃ call,
    call_cmd call = "sudo -i -u vmail doveadm reload"%string
    ∧ ∀ os, ∃ w2,
        settings [("sudo_user"%string, VStr "vmail")]
          (exec_cmd os "doveadm reload" VNone VNone true ∅) initial_world =
          (outcome os call, w2)
        ∧ ENV w2 !! "sudo_user"%string =
            match os call with
            | Return _ => None
            | Raise _ => Some (VStr "vmail")
            end
        ∧ ∀ key, key ≠ "sudo_user"%string →
            ENV w2 !! key = ENV initial_world !! key.
Proof.
exact (exec_cmd_under_settings_sudo_user "vmail" "doveadm reload" VNone VNone
  true ∅ initial_world).
Defined.


